(** * ex4_HH.py : Hodgkin-Huxley action potential propagation model

    Verification development for the rate law [HHRateFunction] of
    [ex4_HH.py] and for the channel model the script declares.

    Number models.  The file reads Python's [float] in two ways.

    On the reals: [+], [-], [*] are the field operations of [R], [math.exp]
    is [exp] and [math.pow(3.0, y)] is [Rpower 3 y]; a float division whose
    divisor is zero raises [ZeroDivisionError] and [math.isclose] raises
    [ValueError] on a negative tolerance.  Rounding and the range errors of
    binary64 are outside this reading.  It carries the sign facts of the six
    rate lambdas on the operating range [Vrange], the plot helper and the
    injection code.

    On binary64 numbers (module [Binary64]): every operation of lines 71-80
    is the IEEE 754 operation on Rocq's primitive floats, [math.pow],
    [math.exp] and [math.isclose] are CPython's wrappers with their
    [ValueError] and [OverflowError], and the C library under them is a
    parameter.  It carries what a call of [HHRateFunction] returns or raises
    for arbitrary arguments.

    Channel model.  The subunits, channels, reactions, currents and tables
    are those of the script.  The solver that builds the state spaces and
    advances the counts is called by the script and is not part of it; its
    engine is modelled after the specification, and every such definition
    says so. *)

From Stdlib Require Import Floats Reals Lra Lia ZArith List Bool.
Import ListNotations.

Open Scope R_scope.

(** ** Python results: a value or a raised exception *)

Module Py.

Inductive exn : Set :=
| ZeroDivisionError
| ValueError.

Inductive result (A : Type) : Type :=
| Ok (a : A)
| Raise (e : exn).

Arguments Ok {A} a.
Arguments Raise {A} e.

Definition bind {A B : Type} (m : result A) (k : A -> result B) : result B :=
  match m with
  | Ok a => k a
  | Raise e => Raise e
  end.

(** [x / y] on floats. *)
Definition truediv (x y : R) : result R :=
  if Req_dec_T y 0 then Raise ZeroDivisionError else Ok (x / y).

Definition Rleb (x y : R) : bool :=
  if Rle_dec x y then true else false.

Definition Rltb (x y : R) : bool :=
  if Rlt_dec x y then true else false.

Definition Reqb (x y : R) : bool :=
  if Req_dec_T x y then true else false.

End Py.

Import Py.

(** ** The functions of Python's [math] module that the script calls *)

Module math.

(** [math.isclose(a, b, rel_tol=..., abs_tol=...)], after CPython's
    [math_isclose_impl]: negative tolerances are rejected, equal arguments are
    close, otherwise the distance is compared with the two relative bounds and
    with the absolute one. *)
Definition isclose (a b rel_tol abs_tol : R) : result bool :=
  if Rltb rel_tol 0 || Rltb abs_tol 0 then Raise ValueError
  else
    let diff := Rabs (b - a) in
    Ok (Reqb a b
        || Rleb diff (Rabs (rel_tol * b))
        || Rleb diff (Rabs (rel_tol * a))
        || Rleb diff abs_tol).

(** Default [rel_tol] of [math.isclose]. *)
Definition rel_tol_default : R := 1e-09.

(** [math.pow(x, y)] for a positive base. *)
Definition pow (x y : R) : R := Rpower x y.

(** [math.exp(x)]. *)
Abbreviation exp := Rtrigo_def.exp (only parsing).

End math.

Declare Scope py_scope.
Delimit Scope py_scope with py.
Notation "x <- m ;; k" := (bind m (fun x => k))
  (at level 61, m at next level, right associativity) : py_scope.
Open Scope py_scope.

(** ** The rate function (ex4_HH.py, lines 71-80) *)

(** Default value of the keyword argument [abs_tol]. *)
Definition abs_tol_default : R := 1e-13.

Definition HHRateFunction (celsius A B C D F H V abs_tol : R) : result R :=
  let thi := 1e3 * math.pow 3.0 ((celsius - 6.3) / 10.0) in
  let num := A + B * V * 1e3 in
  q <- truediv (V * 1e3 + D) F ;;
  let denom := C + H * math.exp q in
  num_close <- math.isclose num 0 math.rel_tol_default abs_tol ;;
  both_close <- (if num_close
                 then math.isclose denom 0 math.rel_tol_default abs_tol
                 else Ok false) ;;
  if both_close then
    q' <- truediv (V * 1e3 + D) F ;;
    truediv (thi * F * B) (H * math.exp q')
  else
    truediv (thi * num) denom.

(** A call that leaves [abs_tol] at its default. *)
Definition HHRate (celsius A B C D F H V : R) : result R :=
  HHRateFunction celsius A B C D F H V abs_tol_default.

(** ** Simulation controls (lines 88-95) *)

Definition celsius : R := 20.0.




(** ** Hodgkin-Huxley gating kinetics (lines 135-142) *)

Definition _a_n (V : R) : result R := HHRate celsius (-0.55) (-0.01) (-1) 55 (-10) 1 V.
Definition _b_n (V : R) : result R := HHRate celsius 1 0 0 65 80 8 V.

Definition _a_m (V : R) : result R := HHRate celsius (-4) (-0.1) (-1) 40 (-10) 1 V.
Definition _b_m (V : R) : result R := HHRate celsius 1 0 0 65 18 0.25 V.

Definition _a_h (V : R) : result R := HHRate celsius 1 0 0 65 20 (1 / 0.07) V.
Definition _b_h (V : R) : result R := HHRate celsius 1 0 1 35 (-10) 1 V.

(** The six rate laws, by name. *)
Inductive RateLaw : Set := a_n | b_n | a_m | b_m | a_h | b_h.

Definition rate_of (l : RateLaw) : R -> result R :=
  match l with
  | a_n => _a_n | b_n => _b_n
  | a_m => _a_m | b_m => _b_m
  | a_h => _a_h | b_h => _b_h
  end.

(** ** The formulas of the rate law, as the specification writes them *)

(** [thi = 1000 * 3^((T-6.3)/10)], the Q10 factor. *)
Definition thi (T : R) : R := 1000 * Rpower 3 ((T - 6.3) / 10).






(** Within absolute tolerance [1e-13] of zero. *)
Definition within_tol (x : R) : Prop := Rabs x <= 1e-13.


(** Which [return] statement a call reaches. *)
Inductive Branch : Set := Fallback | Direct.

(** The control flow of [HHRateFunction] up to the [if] of line 77, without
    the two [return] expressions. *)
Definition HHRate_branch (A B C D F H V abs_tol : R) : result Branch :=
  let num := A + B * V * 1e3 in
  q <- truediv (V * 1e3 + D) F ;;
  let denom := C + H * math.exp q in
  num_close <- math.isclose num 0 math.rel_tol_default abs_tol ;;
  both_close <- (if num_close
                 then math.isclose denom 0 math.rel_tol_default abs_tol
                 else Ok false) ;;
  Ok (if both_close then Fallback else Direct).

(** ** The constant sets of the six laws *)

Record RateConstants : Set := mkConstants
  { cA : R; cB : R; cC : R; cD : R; cF : R; cH : R }.

Definition constants_of (l : RateLaw) : RateConstants :=
  match l with
  | a_n => mkConstants (-0.55) (-0.01) (-1) 55 (-10) 1
  | b_n => mkConstants 1 0 0 65 80 8
  | a_m => mkConstants (-4) (-0.1) (-1) 40 (-10) 1
  | b_m => mkConstants 1 0 0 65 18 0.25
  | a_h => mkConstants 1 0 0 65 20 (1 / 0.07)
  | b_h => mkConstants 1 0 1 35 (-10) 1
  end.


(** The laws whose lambda passes [A = 1] and [B = 0] that the model names
    beta-n, beta-m and alpha-h. *)
Definition unit_numerator_laws : list RateLaw := [b_n; b_m; a_h].

(** ** Channel parameters (lines 29-67) *)

(** Single-channel conductances (siemens), densities (per square meter) and
    reversal potentials (volts). *)
Definition K_G : R := 20.0e-12.
Definition K_ro : R := 18.0e12.
Definition K_rev : R := -77e-3.

Definition Na_G : R := 20.0e-12.
Definition Na_ro : R := 60.0e12.
Definition Na_rev : R := 50e-3.

Definition L_G : R := 0.3e-12.
Definition L_ro : R := 10.0e12.
Definition leak_rev : R := -54.4e-3.

(** Population factors: [n0, n1, n2, n3, n4]. *)
Definition K_facs : list R := [0.21768; 0.40513; 0.28093; 0.08647; 0.00979].

(** Population factors: [m0h0, m1h0, m2h0, m3h0] and [m0h1, m1h1, m2h1, m3h1]. *)
Definition Na_facs : list (list R) :=
  [[0.34412; 0.05733; 0.00327; 6.0e-05];
   [0.50558; 0.08504; 0.00449; 0.00010]].

(** ** The channel model declared by the script (lines 112-160) *)

Inductive SubUnitState : Set :=
| Ko | Kc
| Na_mo | Na_mc | Na_hi | Na_ha
| lsus.

Definition SubUnitState_eq_dec (s t : SubUnitState) : {s = t} + {s <> t}.
Proof. decide equality. Defined.

(** A subunit is the list of its states, a channel the list of its
    subunits. *)
Definition SubUnit : Set := list SubUnitState.
Definition Channel : Set := list SubUnit.

Definition KSU : SubUnit := [Ko; Kc].
Definition VGKC : Channel := repeat KSU 4.

Definition NamSU : SubUnit := [Na_mo; Na_mc].
Definition NahSU : SubUnit := [Na_hi; Na_ha].
Definition VGNaC : Channel := [NamSU; NamSU; NamSU; NahSU].

(** [Channel.Create([lsus])]: the single state stands for a one-state
    subunit. *)
Definition Leak : Channel := [[lsus]].

(** A state selector such as [VGKC[Ko, Ko, Ko, Ko]]: the channel and one
    subunit state per position. *)
Definition ChannelState : Set := list SubUnitState.
Definition ComplexState : Set := (Channel * ChannelState)%type.

Definition ComplexState_eq_dec (s t : ComplexState) : {s = t} + {s <> t}.
Proof.
  repeat decide equality.
Defined.

(** A reversible subunit reaction [lhs.s <r[1]> rhs.s] with
    [r[1].K = fwd, bwd]. *)
Record SubUnitReaction : Set := mkReaction
  { lhs : SubUnitState; rhs : SubUnitState; K_fwd : RateLaw; K_bwd : RateLaw }.

Definition VGKC_reactions : list SubUnitReaction :=
  [mkReaction Kc Ko a_n b_n].

Definition VGNaC_reactions : list SubUnitReaction :=
  [mkReaction Na_hi Na_ha a_h b_h; mkReaction Na_mc Na_mo a_m b_m].

(** [OhmicCurr.Create(state, conductance, reversal potential)]. *)
Record OhmicCurr (State : Type) : Type := mkOhmicCurr
  { open_state : State; conductance : R; reversal : R }.

Arguments mkOhmicCurr {State} _ _ _.
Arguments open_state {State} _.
Arguments conductance {State} _.
Arguments reversal {State} _.

Definition VGKC_I : OhmicCurr ComplexState :=
  mkOhmicCurr (VGKC, [Ko; Ko; Ko; Ko]) K_G K_rev.
Definition VGNaC_I : OhmicCurr ComplexState :=
  mkOhmicCurr (VGNaC, [Na_mo; Na_mo; Na_mo; Na_ha]) Na_G Na_rev.
Definition Leak_I : OhmicCurr ComplexState :=
  mkOhmicCurr (Leak, [lsus]) L_G leak_rev.

(** The currents defined on the surface system [ssys]. *)
Definition ssys_currents : list (OhmicCurr ComplexState) :=
  [VGKC_I; VGNaC_I; Leak_I].

(** ** The channel engine

    The script passes the model to [Simulation('Tetexact', mdl, mesh, rng,
    True)] (line 203) and calls [sim.run(ENDT)] (line 264).  The state space
    of a channel, the stochastic advance of the population counts and the
    ohmic currents are computed inside that solver, whose code is not in the
    script; the state space and the advance of the counts are defined here
    after the specification, the current law is not modelled. *)

(** Modelled from the spec: the state space built by [Channel.Create], which
    the script only calls.  "Its full state space is the Cartesian product of
    each subunit's state set; a ChannelState is one element of that product
    (a tuple of per-subunit states)." *)
Fixpoint states (ch : Channel) : list ChannelState :=
  match ch with
  | [] => [[]]
  | su :: ch' => flat_map (fun x => map (cons x) (states ch')) su
  end.

(** [state.Count(x)] (lines 231, 235): the number of positions in state
    [x]. *)
Definition Count (x : SubUnitState) (state : ChannelState) : nat :=
  count_occ SubUnitState_eq_dec state x.

(** The factor the injection loop of lines 234-236 gives a state of
    [VGKC]: [K_facs[state.Count(Ko)]]. *)
Definition VGKC_prop (state : ChannelState) : R :=
  nth (Count Ko state) K_facs 0.

(** The factor the injection loop of lines 230-232 gives a state of
    [VGNaC]: [Na_facs[state.Count(Na_ha)][state.Count(Na_mo)]]. *)
Definition VGNaC_prop (state : ChannelState) : R :=
  nth (Count Na_mo state) (nth (Count Na_ha state) Na_facs []) 0.

Definition Rsum (l : list R) : R := fold_right Rplus 0 l.

Module Gating.

(** Modelled from the spec: the per-element population counts kept by the
    solver.  "A mapping from ChannelState to non-negative integer population
    count."  The counts are integers so that a negative count can be
    expressed. *)
Definition Counts (State : Type) : Type := State -> Z.

(** Modelled from the spec: a transition of the state graph, "a pair
    (state_from, state_to)" with its voltage-dependent per-channel rate. *)
Record Transition (State : Type) : Type := mkTransition
  { src : State; dst : State; rate : R -> R }.

Arguments mkTransition {State} _ _ _.
Arguments src {State} _.
Arguments dst {State} _.
Arguments rate {State} _ _.

Section Engine.

Context {State : Type}.
Variable State_eq_dec : forall s t : State, {s = t} + {s <> t}.
Variable transitions : list (Transition State).

(** Modelled from the spec: the propensity the solver gives a transition,
    "rate = count_in_source_state x per-channel rate". *)
Definition propensity (c : Counts State) (V : R) (t : Transition State) : R :=
  IZR (c (src t)) * rate t V.

(** Modelled from the spec: the solver's "aggregate propensity" of an
    element and channel type, the sum over all its transitions. *)
Definition total_propensity (c : Counts State) (V : R) : R :=
  Rsum (map (propensity c V) transitions).

(** Modelled from the spec: the solver's event selection, which "selects
    which transition fires proportionally to its own propensity".  The target
    is a uniform sample scaled by the aggregate propensity; the transition
    chosen is the first whose cumulated propensity exceeds it. *)
Fixpoint select (c : Counts State) (V target : R) (ts : list (Transition State))
  : option (Transition State) :=
  match ts with
  | [] => None
  | t :: ts' =>
      if Rltb target (propensity c V t) then Some t
      else select c V (target - propensity c V t) ts'
  end.

(** One channel less, one channel more in state [s]. *)
Definition decr (s : State) (c : Counts State) : Counts State :=
  fun x => if State_eq_dec x s then (c x - 1)%Z else c x.

Definition incr (s : State) (c : Counts State) : Counts State :=
  fun x => if State_eq_dec x s then (c x + 1)%Z else c x.

(** Modelled from the spec: the effect of one event of the solver, "moving
    exactly one channel from source to destination state". *)
Definition fire (t : Transition State) (c : Counts State) : Counts State :=
  incr (dst t) (decr (src t) c).

(** Modelled from the spec: what the solver keeps for one element and one
    channel type, the counts and the waiting time left over from the previous
    field step ("leftover time is retained into the next field step"). *)
Record Engine : Type := mkEngine
  { counts : Counts State; pending : option R }.

(** Two uniform samples of the unit interval, one for the waiting time and
    one for the choice of the transition. *)
Record Draw : Set := mkDraw { u_time : R; u_choice : R }.

Definition unit_draw (r : Draw) : Prop :=
  0 < u_time r <= 1 /\ 0 <= u_choice r < 1.

(** Modelled from the spec: the solver's advance over a timestep [dt] at
    local voltage [V].  "Draws the next-event time across all possible transitions
    from the aggregate propensity and selects which transition fires ...
    This must be repeated until the cumulative event time exceeds dt."  The
    random stream is an explicit list of draws; the advance returns the draws
    it has not used. *)
Fixpoint advance (V : R) (rs : list Draw) (dt : R) (e : Engine)
  : Engine * list Draw :=
  match rs with
  | [] => (e, [])
  | r :: rs' =>
      let a0 := total_propensity (counts e) V in
      if Rleb a0 0 then (mkEngine (counts e) None, rs)
      else
        let tau := match pending e with
                   | Some d => d
                   | None => - ln (u_time r) / a0
                   end in
        if Rltb dt tau then (mkEngine (counts e) (Some (tau - dt)), rs')
        else
          match select (counts e) V (u_choice r * a0) transitions with
          | Some t => advance V rs' (dt - tau) (mkEngine (fire t (counts e)) None)
          | None => (mkEngine (counts e) None, rs')
          end
  end.

(** One field step: its length and the local voltage during it. *)
Record FieldStep : Set := mkFieldStep { step_dt : R; step_V : R }.

(** Modelled from the spec: the solver's simulation loop ([sim.run]) seen
    from one element, a sequence of field steps, each at its own voltage. *)
Fixpoint run (steps : list FieldStep) (rs : list Draw) (e : Engine)
  : Engine * list Draw :=
  match steps with
  | [] => (e, rs)
  | st :: steps' =>
      let (e', rs') := advance (step_V st) rs (step_dt st) e in
      run steps' rs' e'
  end.

(** The sum of the counts over the states of the channel type. *)
Definition total_count (all_states : list State) (c : Counts State) : Z :=
  fold_right Z.add 0%Z (map c all_states).

Definition nonneg (c : Counts State) : Prop := forall s, (0 <= c s)%Z.

End Engine.

End Gating.

(** The per-channel rate of a law at a voltage, for use as the rate of a
    transition; a call that raises contributes no rate. *)
Definition rate_value (l : RateLaw) (V : R) : R :=
  match rate_of l V with
  | Ok r => r
  | Raise _ => 0
  end.

(** A reversible subunit reaction as two transitions: [lhs] to [rhs] at the
    forward rate, [rhs] to [lhs] at the backward rate. *)
Definition reaction_transitions (rx : SubUnitReaction)
  : list (Gating.Transition SubUnitState) :=
  [Gating.mkTransition (lhs rx) (rhs rx) (rate_value (K_fwd rx));
   Gating.mkTransition (rhs rx) (lhs rx) (rate_value (K_bwd rx))].

(** The gate of one potassium subunit, [Kc.s <r[1]> Ko.s] with
    [r[1].K = _a_n, _b_n] (lines 147-148). *)
Definition KSU_transitions : list (Gating.Transition SubUnitState) :=
  flat_map reaction_transitions VGKC_reactions.

(** An element holding ten closed potassium subunits, one field step of
    [EfieldDT = 1.0e-5] seconds (line 245) at the initial potential of
    [-65e-3] volts (line 248), and one draw. *)
Definition KSU_counts : Gating.Counts SubUnitState :=
  fun s => match s with Kc => 10%Z | _ => 0%Z end.

Definition KSU_engine : Gating.Engine := Gating.mkEngine KSU_counts None.

Definition first_field_step : list Gating.FieldStep :=
  [Gating.mkFieldStep 1.0e-5 (-65e-3)].

Definition one_draw : list Gating.Draw := [Gating.mkDraw 0.5 0.5].

(** ** Built-in functions of Python that the script calls *)

Module builtins.

(** [enumerate(iterable, start)]: the items paired with their positions. *)
Fixpoint enumerate_from {A : Type} (start : nat) (l : list A) : list (nat * A) :=
  match l with
  | [] => []
  | x :: l' => (start, x) :: enumerate_from (S start) l'
  end.

(** [enumerate(iterable)]. *)
Definition enumerate {A : Type} (l : list A) : list (nat * A) :=
  enumerate_from 0 l.

(** The loop of [min(iterable, key=...)]: an item replaces the best one so
    far only when its key is strictly smaller. *)
Fixpoint min_from {A : Type} (key : A -> R) (best : A) (l : list A) : A :=
  match l with
  | [] => best
  | x :: l' => min_from key (if Rltb (key x) (key best) then x else best) l'
  end.

(** [min(iterable, key=...)]; an empty iterable raises [ValueError]. *)
Definition min {A : Type} (key : A -> R) (l : list A) : result A :=
  match l with
  | [] => Raise ValueError
  | x :: l' => Ok (min_from key x l')
  end.

End builtins.

(** ** Current injection (lines 92, 259) *)



(** ** Channel injection (lines 230-238) *)

(** [state] gives every subunit of [ch] one of the states of that subunit. *)
Definition state_of (ch : Channel) (state : ChannelState) : Prop :=
  Forall2 (fun x su => In x su) state ch.

(** [K_ro * surfarea * K_facs[state.Count(Ko)]]; [None] stands for the
    [IndexError] of an index out of range. *)
Definition VGKC_Count (surfarea : R) (state : ChannelState) : option R :=
  match nth_error K_facs (Count Ko state) with
  | Some prop => Some (K_ro * surfarea * prop)
  | None => None
  end.

(** [Na_ro * surfarea * Na_facs[state.Count(Na_ha)][state.Count(Na_mo)]]. *)
Definition VGNaC_Count (surfarea : R) (state : ChannelState) : option R :=
  match nth_error Na_facs (Count Na_ha state) with
  | Some row =>
      match nth_error row (Count Na_mo state) with
      | Some prop => Some (Na_ro * surfarea * prop)
      | None => None
      end
  | None => None
  end.

(** ** Plot helpers (lines 272-273) *)

(** [getTIdx(saver, t)], with [time0] the array [saver.time[0]]:
    [min(enumerate(time0), key=lambda v: abs(v[1] - t))[0]]. *)
Definition getTIdx (time0 : list R) (t : R) : result nat :=
  v <- builtins.min (fun v => Rabs (snd v - t)) (builtins.enumerate time0) ;;
  Ok (fst v).

(** [getTIdx] with the distance [abs(v[1] - t)] as a parameter: the script
    computes it on binary64 numbers, where the subtraction rounds, and [min]
    compares the computed distances. *)
Definition getTIdx_by (dist : R -> R -> R) (time0 : list R) (t : R)
  : result nat :=
  v <- builtins.min (fun v => dist (snd v) t) (builtins.enumerate time0) ;;
  Ok (fst v).

(** The control flow of a call of the law [l], with the constants of its
    lambda and the default tolerance. *)
Definition branch_of (l : RateLaw) (V : R) : result Branch :=
  let k := constants_of l in
  HHRate_branch (cA k) (cB k) (cC k) (cD k) (cF k) (cH k) V abs_tol_default.

(** The simulation dt (line 98) and the first three sampling times of a
    saver written every [DT_sim]. *)
Definition DT_sim : R := 1.0e-4.

Definition first_samples : list R := [0; DT_sim; 2 * DT_sim].

(** ** The rate function on binary64 numbers

    The definitions above read floats as real numbers, which fits the sign
    and range facts on [Vrange].  What a call returns or raises in general
    depends on what the reals do not show: the range errors of [math.pow]
    and [math.exp], the underflow of [exp] to zero, infinite results and the
    binary64 value of the tolerance.  This part embeds lines 71-80 on Rocq's
    primitive binary64 numbers, operation by operation. *)

Module Binary64.

#[local] Set Warnings "-inexact-float".
Local Open Scope float_scope.

Inductive exn : Set :=
| ZeroDivisionError
| ValueError
| OverflowError.

Inductive result (A : Type) : Type :=
| Ok (a : A)
| Raise (e : exn).

Arguments Ok {A} a.
Arguments Raise {A} e.

Definition bind {A B : Type} (m : result A) (k : A -> result B) : result B :=
  match m with
  | Ok a => k a
  | Raise e => Raise e
  end.

Declare Scope b64_scope.
Delimit Scope b64_scope with b64.
Notation "x <- m ;; k" := (bind m (fun x => k))
  (at level 61, m at next level, right associativity) : b64_scope.
Local Open Scope b64_scope.

(** [x / y] on floats: a zero divisor of either sign raises. *)
Definition truediv (x y : float) : result float :=
  if y =? 0 then Raise ZeroDivisionError else Ok (x / y).

(** The functions of the C library that Python's [math] module calls.  They
    are not part of the script; the theorems hold for whatever they
    return. *)
Record libm : Type := mklibm
  { c_exp : float -> float;
    c_pow : float -> float -> float;
    c_fmod : float -> float -> float }.

(** [copysign(0., x)]. *)
Definition copysign_zero (x : float) : float :=
  if get_sign x then neg_zero else zero.

(** [math.exp(x)], after CPython's [math_1] with [can_overflow]: a nan
    result for an argument that is not nan is a [ValueError], an infinite
    result for a finite argument an [OverflowError]; an underflow to zero is
    no error. *)
Definition exp (m : libm) (x : float) : result float :=
  let r := c_exp m x in
  if is_nan r && negb (is_nan x) then Raise ValueError
  else if is_infinity r && is_finite x then Raise OverflowError
  else Ok r.

(** [math.pow(x, y)], after CPython's [math_pow_impl]: the special values
    are answered directly, the finite ones by the C library, whose nan
    result is a [ValueError] and whose infinite result an [OverflowError]
    (a [ValueError] for a zero base). *)
Definition pow (m : libm) (x y : float) : result float :=
  if negb (is_finite x) || negb (is_finite y) then
    if is_nan x then Ok (if y =? 0 then 1 else x)
    else if is_nan y then Ok (if x =? 1 then 1 else y)
    else if is_infinity x then
      let odd_y := is_finite y && (c_fmod m (abs y) 2 =? 1) in
      if 0 <? y then Ok (if odd_y then x else abs x)
      else if y =? 0 then Ok 1
      else Ok (if odd_y then copysign_zero x else 0)
    else
      if abs x =? 1 then Ok 1
      else if (0 <? y) && (1 <? abs x) then Ok y
      else if (y <? 0) && (abs x <? 1) then Ok (- y)
      else Ok 0
  else
    let r := c_pow m x y in
    if is_nan r then Raise ValueError
    else if is_infinity r then
      if x =? 0 then Raise ValueError else Raise OverflowError
    else Ok r.

(** [math.isclose(a, b, rel_tol=..., abs_tol=...)], after CPython's
    [math_isclose_impl]. *)
Definition isclose (a b rel_tol abs_tol : float) : result bool :=
  if (rel_tol <? 0) || (abs_tol <? 0) then Raise ValueError
  else if a =? b then Ok true
  else if is_infinity a || is_infinity b then Ok false
  else
    let diff := abs (b - a) in
    Ok ((diff <=? abs (rel_tol * b))
        || (diff <=? abs (rel_tol * a))
        || (diff <=? abs_tol)).

Definition rel_tol_default : float := 1e-09.

(** The binary64 value of the default [abs_tol=1e-13]. *)
Definition abs_tol_default : float := 1e-13.

(** Lines 71-80. *)
Definition HHRateFunction (m : libm) (celsius A B C D F H V abs_tol : float)
  : result float :=
  p <- pow m 3.0 ((celsius - 6.3) / 10.0) ;;
  let thi := 1e3 * p in
  let num := A + B * V * 1e3 in
  q <- truediv (V * 1e3 + D) F ;;
  e <- exp m q ;;
  let denom := C + H * e in
  num_close <- isclose num 0 rel_tol_default abs_tol ;;
  both_close <- (if num_close
                 then isclose denom 0 rel_tol_default abs_tol
                 else Ok false) ;;
  if both_close then
    q' <- truediv (V * 1e3 + D) F ;;
    e' <- exp m q' ;;
    truediv (thi * F * B) (H * e')
  else
    truediv (thi * num) denom.

(** A call that leaves [abs_tol] at its default. *)
Definition HHRate (m : libm) (celsius A B C D F H V : float) : result float :=
  HHRateFunction m celsius A B C D F H V abs_tol_default.

(** Lines 73-77 without the two [return] expressions: which [return] a call
    reaches, or what it raises before. *)
Definition HHRate_branch (m : libm) (celsius A B C D F H V abs_tol : float)
  : result Branch :=
  p <- pow m 3.0 ((celsius - 6.3) / 10.0) ;;
  let num := A + B * V * 1e3 in
  q <- truediv (V * 1e3 + D) F ;;
  e <- exp m q ;;
  let denom := C + H * e in
  num_close <- isclose num 0 rel_tol_default abs_tol ;;
  both_close <- (if num_close
                 then isclose denom 0 rel_tol_default abs_tol
                 else Ok false) ;;
  Ok (if both_close then Fallback else Direct).

(** The test of line 77 on one quantity, at the default tolerance: equal to
    zero, or finite and at a distance from zero within the relative or the
    absolute bound. *)
Definition within_tol (a : float) : bool :=
  (a =? 0)
  || (negb (is_infinity a || is_infinity 0)
      && ((abs (0 - a) <=? abs (rel_tol_default * 0))
          || (abs (0 - a) <=? abs (rel_tol_default * a))
          || (abs (0 - a) <=? abs_tol_default))).

(** Temperature for gating kinetics (line 89). *)
Definition celsius : float := 20.0.

(** Lines 135-142. *)
Definition _a_n (m : libm) (V : float) : result float :=
  HHRate m celsius (-0.55) (-0.01) (-1) 55 (-10) 1 V.
Definition _b_n (m : libm) (V : float) : result float :=
  HHRate m celsius 1 0 0 65 80 8 V.

Definition _a_m (m : libm) (V : float) : result float :=
  HHRate m celsius (-4) (-0.1) (-1) 40 (-10) 1 V.
Definition _b_m (m : libm) (V : float) : result float :=
  HHRate m celsius 1 0 0 65 18 0.25 V.

Definition _a_h (m : libm) (V : float) : result float :=
  HHRate m celsius 1 0 0 65 20 (1 / 0.07) V.
Definition _b_h (m : libm) (V : float) : result float :=
  HHRate m celsius 1 0 1 35 (-10) 1 V.

Definition rate_of (m : libm) (l : RateLaw) : float -> result float :=
  match l with
  | a_n => _a_n m | b_n => _b_n m
  | a_m => _a_m m | b_m => _b_m m
  | a_h => _a_h m | b_h => _b_h m
  end.

(** The constants a lambda passes to [HHRateFunction]. *)
Record RateConstants : Type := mkConstants
  { cA : float; cB : float; cC : float; cD : float; cF : float; cH : float }.

Definition constants_of (l : RateLaw) : RateConstants :=
  match l with
  | a_n => mkConstants (-0.55) (-0.01) (-1) 55 (-10) 1
  | b_n => mkConstants 1 0 0 65 80 8
  | a_m => mkConstants (-4) (-0.1) (-1) 40 (-10) 1
  | b_m => mkConstants 1 0 0 65 18 0.25
  | a_h => mkConstants 1 0 0 65 20 (1 / 0.07)
  | b_h => mkConstants 1 0 1 35 (-10) 1
  end.

(** Which [return] the call of a lambda reaches, or what it raises. *)
Definition branch_of (m : libm) (l : RateLaw) (V : float) : result Branch :=
  let k := constants_of l in
  HHRate_branch m celsius (cA k) (cB k) (cC k) (cD k) (cF k) (cH k) V
                abs_tol_default.

(** A C library given only where its value is known without running one:
    [exp(0) = 1] and [pow(x, 0) = 1] exactly, [exp(x)] overflows from [710]
    on and underflows to zero from [-746] down, [pow(3, y)] overflows from
    [647] on, and at the exponent [(20.0 - 6.3) / 10.0] of line 73 for the
    script's temperature [pow(3, y)] is the binary64 number nearest to the
    real power, [4.504598822453431].  Elsewhere it answers nan; no statement
    below reads it there. *)
Definition range_exp (x : float) : float :=
  if x =? 0 then 1
  else if 710 <=? x then infinity
  else if x <=? -746 then 0
  else nan.

Definition range_pow (x y : float) : float :=
  if y =? 0 then 1
  else if (x =? 3) && (y =? (20.0 - 6.3) / 10.0) then 0x1.204b58dc0268p+2
  else if (x =? 3) && (647 <=? y) then infinity
  else nan.

Definition range_libm : libm := mklibm range_exp range_pow (fun _ _ => nan).

End Binary64.

(** * Basic facts *)

Section PyFacts.




Lemma Rleb_false (x y : R) : Rleb x y = false <-> y < x.
Proof.
  unfold Rleb. destruct (Rle_dec x y); split; intros; try easy; lra.
Qed.

Lemma Rltb_false (x y : R) : y <= x -> Rltb x y = false.
Proof.
  intros Hxy. unfold Rltb. destruct (Rlt_dec x y); [lra | reflexivity].
Qed.



Lemma isclose_negative_tol (a b rel_tol tol : R) :
  tol < 0 -> math.isclose a b rel_tol tol = Raise ValueError.
Proof.
  intros Htol. unfold math.isclose.
  assert (E : Rltb tol 0 = true).
  { unfold Rltb. destruct (Rlt_dec tol 0); [reflexivity | contradiction]. }
  now rewrite E, orb_true_r.
Qed.

End PyFacts.

Section RateFacts.

Variables T A B C D F H V : R.






Hypothesis F_nonzero : F <> 0.







End RateFacts.

(** The table agrees with the lambdas of lines 135-142. *)
Lemma rate_of_constants (l : RateLaw) (V : R) :
  rate_of l V =
  let k := constants_of l in
  HHRate celsius (cA k) (cB k) (cC k) (cD k) (cF k) (cH k) V.
Proof. destruct l; reflexivity. Qed.

Section SignFacts.









End SignFacts.
(** * The rate laws on the operating range *)



(** * The channel engine: counts under firing *)

Module GatingFacts.

Import Gating.

Section Conservation.

Context {State : Type}.
Variable State_eq_dec : forall s t : State, {s = t} + {s <> t}.
Variable transitions : list (Transition State).
Variable all_states : list State.

Hypothesis all_states_NoDup : NoDup all_states.
Hypothesis transitions_closed :
  forall t, In t transitions -> In (src t) all_states /\ In (dst t) all_states.

Lemma total_count_decr_occ (l : list State) (s : State) (c : Counts State) :
  total_count l (decr State_eq_dec s c) =
  (total_count l c - Z.of_nat (count_occ State_eq_dec l s))%Z.
Proof.
  unfold total_count, decr.
  induction l as [| a l IH]; simpl; [reflexivity |].
  rewrite IH.
  destruct (State_eq_dec a s) as [-> | Hne].
  - destruct (State_eq_dec s s); [| contradiction]. lia.
  - destruct (State_eq_dec a s); [contradiction | lia].
Qed.

Lemma total_count_incr_occ (l : list State) (s : State) (c : Counts State) :
  total_count l (incr State_eq_dec s c) =
  (total_count l c + Z.of_nat (count_occ State_eq_dec l s))%Z.
Proof.
  unfold total_count, incr.
  induction l as [| a l IH]; simpl; [lia |].
  rewrite IH.
  destruct (State_eq_dec a s) as [-> | Hne].
  - destruct (State_eq_dec s s); [| contradiction]. lia.
  - destruct (State_eq_dec a s); [contradiction | lia].
Qed.

Lemma count_occ_all_states (s : State) :
  In s all_states -> count_occ State_eq_dec all_states s = 1%nat.
Proof.
  intros Hin.
  now apply (proj1 (NoDup_count_occ' State_eq_dec all_states) all_states_NoDup).
Qed.

(** Firing takes one channel from the source and gives one to the
    destination: the total is unchanged. *)
Lemma total_count_fire (t : Transition State) (c : Counts State) :
  In t transitions ->
  total_count all_states (fire State_eq_dec t c) = total_count all_states c.
Proof.
  intros Hin. destruct (transitions_closed t Hin) as [Hsrc Hdst].
  unfold fire. rewrite total_count_incr_occ, total_count_decr_occ.
  rewrite !count_occ_all_states by assumption. lia.
Qed.

Lemma select_In (c : Counts State) (V : R) (ts : list (Transition State)) :
  forall target t, select c V target ts = Some t -> In t ts.
Proof.
  induction ts as [| a ts IH]; simpl; intros target t Hsel; [discriminate |].
  destruct (Rltb target (propensity c V a)).
  - injection Hsel as <-. now left.
  - right. eapply IH. eassumption.
Qed.

Lemma advance_total (V : R) (rs : list Draw) :
  forall dt e,
    total_count all_states
      (counts (fst (advance State_eq_dec transitions V rs dt e))) =
    total_count all_states (counts e).
Proof.
  induction rs as [| r rs IH]; intros dt e; simpl; [reflexivity |].
  destruct (Rleb (total_propensity transitions (counts e) V) 0); [reflexivity |].
  match goal with |- context [Rltb dt ?tau] => destruct (Rltb dt tau) end;
    [reflexivity |].
  destruct (select (counts e) V _ transitions) as [t |] eqn:Hsel; [| reflexivity].
  rewrite IH. simpl. apply total_count_fire.
  eapply select_In. eassumption.
Qed.

Lemma run_total (steps : list FieldStep) :
  forall rs e,
    total_count all_states
      (counts (fst (run State_eq_dec transitions steps rs e))) =
    total_count all_states (counts e).
Proof.
  induction steps as [| st steps IH]; intros rs e; simpl; [reflexivity |].
  destruct (advance State_eq_dec transitions (step_V st) rs (step_dt st) e)
    as [e' rs'] eqn:Hadv.
  rewrite IH.
  change e' with (fst (e', rs')). rewrite <- Hadv. apply advance_total.
Qed.

End Conservation.

Section NonNegative.

Context {State : Type}.
Variable State_eq_dec : forall s t : State, {s = t} + {s <> t}.
Variable transitions : list (Transition State).

Lemma propensity_zero_source (c : Counts State) (V : R) (t : Transition State) :
  c (src t) = 0%Z -> propensity c V t = 0.
Proof.
  intros Hc. unfold propensity. rewrite Hc. simpl. ring.
Qed.

(** The transition chosen for a non-negative target has a positive
    propensity. *)
Lemma select_positive (c : Counts State) (V : R) (ts : list (Transition State)) :
  forall target t,
    0 <= target -> select c V target ts = Some t -> 0 < propensity c V t.
Proof.
  induction ts as [| a ts IH]; simpl; intros target t Htarget Hsel;
    [discriminate |].
  unfold Rltb in Hsel.
  destruct (Rlt_dec target (propensity c V a)) as [Hlt | Hge].
  - injection Hsel as <-. lra.
  - apply (IH (target - propensity c V a)); [lra | assumption].
Qed.

Lemma positive_propensity_source (c : Counts State) (V : R) (t : Transition State) :
  nonneg c -> 0 < propensity c V t -> (0 < c (src t))%Z.
Proof.
  intros Hc Hp.
  destruct (Z.eq_dec (c (src t)) 0) as [E | N].
  - rewrite (propensity_zero_source c V t E) in Hp. lra.
  - specialize (Hc (src t)). lia.
Qed.

Lemma fire_nonneg (t : Transition State) (c : Counts State) :
  nonneg c -> (0 < c (src t))%Z -> nonneg (fire State_eq_dec t c).
Proof.
  intros Hc Hsrc s. unfold fire, incr, decr. specialize (Hc s).
  destruct (State_eq_dec s (dst t)); destruct (State_eq_dec s (src t));
    subst; lia.
Qed.

Lemma advance_nonneg (V : R) (rs : list Draw) :
  forall dt e,
    Forall unit_draw rs ->
    nonneg (counts e) ->
    nonneg (counts (fst (advance State_eq_dec transitions V rs dt e)))
    /\ Forall unit_draw (snd (advance State_eq_dec transitions V rs dt e)).
Proof.
  induction rs as [| r rs IH]; intros dt e Hrs He; simpl; [now split |].
  pose proof (Forall_inv Hrs) as Hr. pose proof (Forall_inv_tail Hrs) as Hrs'.
  destruct (Rleb (total_propensity transitions (counts e) V) 0) eqn:Ea0;
    [now split |].
  apply Rleb_false in Ea0.
  match goal with |- context [Rltb dt ?tau] => destruct (Rltb dt tau) end;
    [now split |].
  destruct (select (counts e) V _ transitions) as [t |] eqn:Hsel; [| now split].
  apply IH; [assumption |]. simpl.
  apply fire_nonneg; [assumption |].
  apply (positive_propensity_source (counts e) V t He).
  eapply select_positive; [| exact Hsel].
  destruct Hr as [_ [Hu _]]. apply Rmult_le_pos; lra.
Qed.

Lemma run_nonneg (steps : list FieldStep) :
  forall rs e,
    Forall unit_draw rs ->
    nonneg (counts e) ->
    nonneg (counts (fst (run State_eq_dec transitions steps rs e))).
Proof.
  induction steps as [| st steps IH]; intros rs e Hrs He; simpl; [assumption |].
  destruct (advance State_eq_dec transitions (step_V st) rs (step_dt st) e)
    as [e' rs'] eqn:Hadv.
  destruct (advance_nonneg (step_V st) rs (step_dt st) e Hrs He) as [He' Hrs'].
  rewrite Hadv in He', Hrs'. simpl in He', Hrs'.
  now apply IH.
Qed.

End NonNegative.

End GatingFacts.

(** * The channel engine: conservation, non-negative counts *)

Import Gating.

(** C3.  For every element and channel type (a set of states without
    repetition and transitions between these states), every field step of
    any length at any voltage and every sequence of such steps leave the sum
    of the counts over all states of the channel type unchanged: it stays the
    total the element started with. *)
Theorem channel_count_conserved :
  forall (State : Type) (State_eq_dec : forall s t : State, {s = t} + {s <> t})
         (transitions : list (Transition State)) (all_states : list State),
    NoDup all_states ->
    (forall t, In t transitions ->
               In (src t) all_states /\ In (dst t) all_states) ->
    (forall (V dt : R) (rs : list Draw) (e : Engine),
        total_count all_states
          (counts (fst (advance State_eq_dec transitions V rs dt e))) =
        total_count all_states (counts e))
    /\
    (forall (steps : list FieldStep) (rs : list Draw) (e : Engine),
        total_count all_states
          (counts (fst (run State_eq_dec transitions steps rs e))) =
        total_count all_states (counts e)).
Proof.
  intros State State_eq_dec transitions all_states Hnd Hclosed. split.
  - intros V dt rs e. now apply GatingFacts.advance_total.
  - intros steps rs e. now apply GatingFacts.run_total.
Qed.

Lemma channel_count_conserved_witness :
  total_count KSU
    (counts (fst (run SubUnitState_eq_dec KSU_transitions
                      first_field_step one_draw KSU_engine))) =
  total_count KSU (counts KSU_engine).
Proof.
  apply (channel_count_conserved SubUnitState SubUnitState_eq_dec
           KSU_transitions KSU).
  - unfold KSU. repeat constructor; simpl; intuition discriminate.
  - unfold KSU_transitions, KSU. simpl.
    intros t [<- | [<- | []]]; simpl; auto.
Defined.

(** C5.  No population count becomes negative.  The propensity of a
    transition is zero when its source count is zero; the selection, for a
    non-negative target, only returns a transition whose source count is
    positive; hence, from non-negative counts and draws of the unit interval,
    every run ends with non-negative counts. *)
Theorem counts_never_negative :
  forall (State : Type) (State_eq_dec : forall s t : State, {s = t} + {s <> t})
         (transitions : list (Transition State)),
    (forall (c : Counts State) (V : R) (t : Transition State),
        c (src t) = 0%Z -> propensity c V t = 0)
    /\
    (forall (c : Counts State) (V target : R) (t : Transition State),
        nonneg c -> 0 <= target ->
        select c V target transitions = Some t -> (0 < c (src t))%Z)
    /\
    (forall (steps : list FieldStep) (rs : list Draw) (e : Engine),
        Forall unit_draw rs -> nonneg (counts e) ->
        nonneg (counts (fst (run State_eq_dec transitions steps rs e)))).
Proof.
  intros State State_eq_dec transitions. repeat split.
  - intros c V t. apply GatingFacts.propensity_zero_source.
  - intros c V target t Hc Htarget Hsel.
    apply (GatingFacts.positive_propensity_source c V t Hc).
    eapply GatingFacts.select_positive; eassumption.
  - intros steps rs e. apply GatingFacts.run_nonneg.
Qed.

Lemma counts_never_negative_witness :
  nonneg (counts (fst (run SubUnitState_eq_dec KSU_transitions
                           first_field_step one_draw KSU_engine))).
Proof.
  apply (counts_never_negative SubUnitState SubUnitState_eq_dec KSU_transitions).
  - unfold one_draw. repeat constructor; simpl; lra.
  - intros s. destruct s; simpl; lia.
Defined.

(** * The injection loops over the product state space *)

Lemma VGKC_prop_states :
  map VGKC_prop (states VGKC) =
  [0.00979; 0.08647; 0.08647; 0.28093; 0.08647; 0.28093; 0.28093; 0.40513; 0.08647; 0.28093; 0.28093; 0.40513; 0.28093; 0.40513; 0.40513; 0.21768].
Proof. reflexivity. Qed.

(** The table [K_facs] sums to one; over the sixteen tuples of the product
    state space the loop of lines 234-236 hands out 3.87945 times
    [K_ro * surfarea]. *)
Lemma VGKC_injection_factors :
  Rsum K_facs = 1
  /\ length (states VGKC) = 16%nat
  /\ Rsum (map VGKC_prop (states VGKC)) = 3.87945.
Proof.
  split; [| split].
  - unfold Rsum, K_facs. simpl. lra.
  - reflexivity.
  - rewrite VGKC_prop_states. unfold Rsum. simpl. lra.
Qed.

Lemma VGNaC_prop_states :
  map VGNaC_prop (states VGNaC) =
  [6.0e-05; 0.00010; 0.00327; 0.00449; 0.00327; 0.00449; 0.05733; 0.08504;
   0.00327; 0.00449; 0.05733; 0.08504; 0.05733; 0.08504; 0.34412; 0.50558].
Proof. reflexivity. Qed.

(** The table [Na_facs] sums to 0.99999; over the sixteen tuples of the
    product state space the loop of lines 230-232 hands out 1.30025 times
    [Na_ro * surfarea]. *)
Lemma VGNaC_injection_factors :
  Rsum (map Rsum Na_facs) = 0.99999
  /\ length (states VGNaC) = 16%nat
  /\ Rsum (map VGNaC_prop (states VGNaC)) = 1.30025.
Proof.
  split; [| split].
  - unfold Rsum, Na_facs. simpl. lra.
  - reflexivity.
  - rewrite VGNaC_prop_states.
    unfold Rsum. simpl. lra.
Qed.

(** * The six rate laws: where the fallback is taken, positivity *)

Section RatioFacts.





End RatioFacts.




Section UnitLaws.

Variables T C D F H : R.
Hypothesis C_nonneg : 0 <= C.
Hypothesis H_pos : 0 < H.
Hypothesis F_nonzero : F <> 0.



End UnitLaws.



(** * The plot helper [getTIdx] *)

Module BuiltinsFacts.

Import builtins.

Section MinFacts.

Context {A : Type}.
Variable key : A -> R.

(** The item returned by the loop of [min] splits the sequence: the items
    before it have a strictly larger key, the items after it a key at least
    as large. *)
Lemma min_from_split (l : list A) :
  forall best,
  exists l1 l2,
    best :: l = l1 ++ min_from key best l :: l2
    /\ (forall y, In y l1 -> key (min_from key best l) < key y)
    /\ (forall y, In y l2 -> key (min_from key best l) <= key y).
Proof.
  induction l as [| x l IH]; intros best; simpl.
  - exists [], []. repeat split; intros y [].
  - destruct (Rltb (key x) (key best)) eqn:E.
    + assert (Hlt : key x < key best).
      { unfold Rltb in E. destruct (Rlt_dec (key x) (key best));
          [assumption | discriminate]. }
      destruct (IH x) as (l1 & l2 & Hsplit & Hbefore & Hafter).
      exists (best :: l1), l2. split; [simpl; f_equal; exact Hsplit |].
      split; [| exact Hafter].
      intros y [<- | Hin]; [| now apply Hbefore].
      destruct l1 as [| z l1]; simpl in Hsplit.
      * injection Hsplit as Hx _. now rewrite <- Hx.
      * injection Hsplit as Hx _. subst z.
        specialize (Hbefore x (or_introl eq_refl)). lra.
    + assert (Hge : ~ key x < key best).
      { unfold Rltb in E. destruct (Rlt_dec (key x) (key best));
          [discriminate | assumption]. }
      destruct (IH best) as (l1 & l2 & Hsplit & Hbefore & Hafter).
      destruct l1 as [| z l1]; simpl in Hsplit.
      * injection Hsplit as Hbest Hl. exists [], (x :: l2).
        split; [simpl; rewrite <- Hbest, Hl; reflexivity |].
        split; [intros y [] |].
        intros y [<- | Hin]; [rewrite <- Hbest; lra | now apply Hafter].
      * injection Hsplit as Hz Hl. subst z.
        exists (best :: x :: l1), l2.
        split; [simpl; do 2 f_equal; exact Hl |].
        split; [| exact Hafter].
        pose proof (Hbefore best (or_introl eq_refl)) as Hb.
        intros y [<- | [<- | Hin]]; [assumption | lra |].
        apply Hbefore. now right.
Qed.

End MinFacts.

Lemma nth_error_enumerate_from {A : Type} (l : list A) :
  forall start k,
    nth_error (enumerate_from start l) k =
    option_map (pair (start + k)%nat) (nth_error l k).
Proof.
  induction l as [| x l IH]; intros start k.
  - destruct k; reflexivity.
  - destruct k as [| k]; simpl.
    + now rewrite Nat.add_0_r.
    + rewrite IH. now rewrite Nat.add_succ_r.
Qed.

(** Where an item of a split sequence lies. *)
Lemma nth_error_split_cases {A : Type} (l1 l2 : list A) (r : A) :
  forall j y,
    nth_error (l1 ++ r :: l2) j = Some y ->
    (j < length l1 /\ In y l1)%nat
    \/ (j = length l1 /\ y = r)
    \/ (length l1 < j /\ In y l2)%nat.
Proof.
  intros j y Hnth.
  destruct (Nat.lt_trichotomy j (length l1)) as [Hlt | [Heq | Hgt]].
  - left. split; [assumption |].
    rewrite nth_error_app1 in Hnth by assumption.
    eapply nth_error_In. eassumption.
  - right. left. split; [assumption |]. subst j.
    rewrite nth_error_app2, Nat.sub_diag in Hnth by lia.
    simpl in Hnth. now injection Hnth as <-.
  - right. right. split; [assumption |].
    rewrite nth_error_app2 in Hnth by lia.
    destruct (j - length l1)%nat as [| m] eqn:Em; [lia |].
    simpl in Hnth. eapply nth_error_In. eassumption.
Qed.

End BuiltinsFacts.

(** What a returned index satisfies, in one statement, for any computed
    distance. *)
Lemma getTIdx_by_spec (dist : R -> R -> R) (time0 : list R) (t : R) (i : nat) :
  getTIdx_by dist time0 t = Ok i ->
  (i < length time0)%nat
  /\ forall j, (j < length time0)%nat ->
       dist (nth i time0 0) t <= dist (nth j time0 0) t
       /\ ((j < i)%nat -> dist (nth i time0 0) t < dist (nth j time0 0) t).
Proof.
  unfold getTIdx_by, builtins.min, builtins.enumerate.
  destruct time0 as [| x l]; [discriminate |].
  cbn [builtins.enumerate_from bind].
  set (key := fun v : nat * R => dist (snd v) t).
  destruct (BuiltinsFacts.min_from_split key (builtins.enumerate_from 1 l) (0%nat, x))
    as (l1 & l2 & Hsplit & Hbefore & Hafter).
  set (r := builtins.min_from key (0%nat, x) (builtins.enumerate_from 1 l)) in *.
  change ((0%nat, x) :: builtins.enumerate_from 1 l)
    with (builtins.enumerate_from 0 (x :: l)) in Hsplit.
  intros Hi. injection Hi as Hi.
  assert (Hat : forall j, nth_error (l1 ++ r :: l2) j =
                          option_map (pair j) (nth_error (x :: l) j)).
  { intros j. rewrite <- Hsplit.
    now rewrite BuiltinsFacts.nth_error_enumerate_from. }
  assert (Hr : nth_error (x :: l) (length l1) = Some (snd r)
               /\ fst r = length l1).
  { specialize (Hat (length l1)).
    rewrite nth_error_app2, Nat.sub_diag in Hat by lia. simpl in Hat.
    destruct (nth_error (x :: l) (length l1)) as [v |]; [| discriminate].
    simpl in Hat. injection Hat as ->. now split. }
  destruct Hr as [Hv Hfst]. rewrite Hfst in Hi. subst i.
  assert (Hlen : (length l1 < length (x :: l))%nat).
  { apply nth_error_Some. rewrite Hv. discriminate. }
  split; [exact Hlen |].
  intros j Hj.
  rewrite (nth_error_nth _ _ 0 Hv).
  destruct (nth_error (x :: l) j) as [w |] eqn:Hw;
    [| apply nth_error_None in Hw; lia].
  rewrite (nth_error_nth _ _ 0 Hw).
  specialize (Hat j). rewrite Hw in Hat. simpl in Hat.
  change (dist (snd r) t) with (key r).
  change (dist w t) with (key (j, w)).
  destruct (BuiltinsFacts.nth_error_split_cases l1 l2 r j (j, w) Hat)
    as [[Hlt Hin] | [[Heq Hjr] | [Hgt Hin]]].
  - specialize (Hbefore _ Hin). split; [lra | intros _; exact Hbefore].
  - rewrite <- Hjr. split; [lra | lia].
  - specialize (Hafter _ Hin). split; [exact Hafter | lia].
Qed.

(** On the reals the distance is exact. *)
Lemma getTIdx_exact_distance (time0 : list R) (t : R) :
  getTIdx time0 t = getTIdx_by (fun a b => Rabs (a - b)) time0 t.
Proof. reflexivity. Qed.

Lemma getTIdx_spec (time0 : list R) (t : R) (i : nat) :
  getTIdx time0 t = Ok i ->
  (i < length time0)%nat
  /\ forall j, (j < length time0)%nat ->
       Rabs (nth i time0 0 - t) <= Rabs (nth j time0 0 - t)
       /\ ((j < i)%nat -> Rabs (nth i time0 0 - t) < Rabs (nth j time0 0 - t)).
Proof.
  rewrite getTIdx_exact_distance.
  apply (getTIdx_by_spec (fun a b => Rabs (a - b))).
Qed.

Lemma getTIdx_nonempty (time0 : list R) (t : R) :
  time0 <> [] -> exists i, getTIdx time0 t = Ok i.
Proof.
  intros Hne. destruct time0 as [| x l]; [contradiction |].
  unfold getTIdx, builtins.min, builtins.enumerate. simpl.
  eexists. reflexivity.
Qed.

(** X9.  On an empty time array [getTIdx] raises the [ValueError] of
    [min]; on a non-empty one it returns an index inside the array. *)
Theorem getTIdx_returns_index :
  forall (time0 : list R) (t : R),
    (time0 = [] -> getTIdx time0 t = Raise ValueError)
    /\ (time0 <> [] ->
        exists i, getTIdx time0 t = Ok i /\ (i < length time0)%nat).
Proof.
  intros time0 t. split.
  - intros ->. reflexivity.
  - intros Hne.
    destruct (getTIdx_nonempty time0 t Hne) as [i Hget].
    exists i. split; [exact Hget |]. now apply (getTIdx_spec _ t).
Qed.

Lemma getTIdx_returns_index_witness :
  exists i, getTIdx first_samples DT_sim = Ok i
            /\ (i < length first_samples)%nat.
Proof.
  apply (proj2 (getTIdx_returns_index first_samples DT_sim)).
  discriminate.
Defined.

(** X10.  The index [getTIdx] returns is the first one at which the
    distance [abs(v[1] - t)], as the call computes it, is smallest: no time
    has a smaller computed distance, and every earlier time has a strictly
    larger one.  This holds however the subtraction rounds. *)
Theorem getTIdx_first_smallest_distance :
  forall (dist : R -> R -> R) (time0 : list R) (t : R) (i : nat),
    getTIdx_by dist time0 t = Ok i ->
    (i < length time0)%nat
    /\ forall j, (j < length time0)%nat ->
         dist (nth i time0 0) t <= dist (nth j time0 0) t
         /\ ((j < i)%nat -> dist (nth i time0 0) t < dist (nth j time0 0) t).
Proof.
  intros dist time0 t i Hget. now apply getTIdx_by_spec.
Qed.

(** X11.  Looking up a time of the array gives back its index: for an array
    without repeated times, [getTIdx] at the [k]-th time returns [k]. *)
Theorem getTIdx_of_sample :
  forall (time0 : list R) (k : nat),
    NoDup time0 -> (k < length time0)%nat ->
    getTIdx time0 (nth k time0 0) = Ok k.
Proof.
  intros time0 k Hnd Hk.
  destruct (getTIdx_nonempty time0 (nth k time0 0)) as [i Hget].
  { intros ->. simpl in Hk. lia. }
  pose proof (proj1 (getTIdx_spec _ _ _ Hget)) as Hi.
  rewrite Hget. f_equal.
  destruct (proj2 (getTIdx_spec _ _ _ Hget) k Hk) as [Hle _].
  replace (nth k time0 0 - nth k time0 0) with 0 in Hle by ring.
  rewrite Rabs_R0 in Hle.
  assert (Heq : nth i time0 0 = nth k time0 0).
  { pose proof (Rabs_pos (nth i time0 0 - nth k time0 0)) as Hpos.
    destruct (Req_dec_T (nth i time0 0) (nth k time0 0)) as [E | N]; [exact E |].
    assert (Hd : nth i time0 0 - nth k time0 0 <> 0) by lra.
    pose proof (Rabs_pos_lt _ Hd). lra. }
  now apply (proj1 (NoDup_nth time0 0) Hnd i k Hi Hk).
Qed.

(** The second of the first three samples is the one at [DT_sim]. *)
Lemma getTIdx_first_samples : getTIdx first_samples DT_sim = Ok 1%nat.
Proof.
  unfold getTIdx, builtins.min, builtins.enumerate, first_samples.
  cbn [builtins.enumerate_from builtins.min_from bind snd].
  assert (E0 : Rabs (0 - DT_sim) = DT_sim).
  { rewrite Rabs_minus_sym. replace (DT_sim - 0) with DT_sim by ring.
    unfold DT_sim. apply Rabs_pos_eq. lra. }
  assert (E1 : Rabs (DT_sim - DT_sim) = 0).
  { replace (DT_sim - DT_sim) with 0 by ring. apply Rabs_R0. }
  assert (E2 : Rabs (2 * DT_sim - DT_sim) = DT_sim).
  { replace (2 * DT_sim - DT_sim) with DT_sim by ring.
    unfold DT_sim. apply Rabs_pos_eq. lra. }
  rewrite E0, E1.
  assert (Hlt : Rltb 0 DT_sim = true).
  { unfold Rltb, DT_sim. destruct (Rlt_dec 0 1.0e-4); [reflexivity | lra]. }
  rewrite Hlt. cbn [snd]. rewrite E1, E2.
  rewrite (Rltb_false DT_sim 0) by (unfold DT_sim; lra).
  reflexivity.
Qed.

(** With the exact distance, on the first three samples: index 1 is closest
    to [DT_sim], and index 0 is strictly farther. *)
Lemma getTIdx_first_smallest_distance_witness :
  (1 < length first_samples)%nat
  /\ Rabs (nth 1 first_samples 0 - DT_sim) <= Rabs (nth 0 first_samples 0 - DT_sim)
  /\ Rabs (nth 1 first_samples 0 - DT_sim) < Rabs (nth 0 first_samples 0 - DT_sim).
Proof.
  destruct (getTIdx_first_smallest_distance
              (fun a b => Rabs (a - b)) first_samples DT_sim 1) as [Hi Hj].
  - rewrite <- getTIdx_exact_distance. exact getTIdx_first_samples.
  - destruct (Hj 0%nat) as [Hle Hlt]; [simpl; lia |].
    split; [exact Hi |]. split; [exact Hle | apply Hlt; lia].
Defined.

Lemma getTIdx_of_sample_witness :
  getTIdx first_samples (nth 2 first_samples 0) = Ok 2%nat.
Proof.
  apply (getTIdx_of_sample first_samples 2).
  - unfold first_samples, DT_sim.
    repeat constructor; simpl; intros Hin; intuition lra.
  - simpl. lia.
Defined.

(** * Current injection and channel injection *)



Section InjectionFacts.

Lemma nth_error_K_facs (k : nat) :
  (k <= 4)%nat -> exists prop, nth_error K_facs k = Some prop /\ 0 <= prop.
Proof.
  intros Hk. unfold K_facs.
  do 5 (destruct k as [| k]; [simpl; eexists; split; [reflexivity | lra] |]).
  lia.
Qed.

Lemma Count_le_length (x : SubUnitState) (state : ChannelState) :
  (Count x state <= length state)%nat.
Proof. unfold Count. apply count_occ_bound. Qed.

Lemma state_of_length (ch : Channel) (state : ChannelState) :
  state_of ch state -> length state = length ch.
Proof. unfold state_of. apply Forall2_length. Qed.

End InjectionFacts.

(** X13.  The lookup [K_facs[state.Count(Ko)]] succeeds exactly when at
    most four subunits are in state [Ko]; in particular it succeeds for
    every state that gives the four subunits of [VGKC] one state each, and
    the count injected is then non-negative for a non-negative area. *)
Theorem VGKC_Count_in_range :
  forall (surfarea : R) (state : ChannelState),
    (VGKC_Count surfarea state <> None <-> (Count Ko state <= 4)%nat)
    /\ (state_of VGKC state ->
        exists n, VGKC_Count surfarea state = Some n
                  /\ (0 <= surfarea -> 0 <= n)).
Proof.
  intros surfarea state.
  assert (Hin : (Count Ko state <= 4)%nat ->
                exists n, VGKC_Count surfarea state = Some n
                          /\ (0 <= surfarea -> 0 <= n)).
  { intros Hk. destruct (nth_error_K_facs _ Hk) as (prop & Hprop & Hpos).
    exists (K_ro * surfarea * prop). unfold VGKC_Count. rewrite Hprop.
    split; [reflexivity |]. intros Harea.
    apply Rmult_le_pos; [apply Rmult_le_pos |]; try assumption.
    unfold K_ro. lra. }
  split.
  - split.
    + intros Hsome. unfold VGKC_Count in Hsome.
      destruct (nth_error K_facs (Count Ko state)) eqn:Hnth;
        [| contradiction].
      assert (Hlt : (Count Ko state < length K_facs)%nat).
      { apply nth_error_Some. rewrite Hnth. discriminate. }
      simpl in Hlt. lia.
    + intros Hk. destruct (Hin Hk) as (n & Hn & _). rewrite Hn. discriminate.
  - intros Hstate. apply Hin.
    pose proof (Count_le_length Ko state) as Hle.
    rewrite (state_of_length _ _ Hstate) in Hle. simpl in Hle. exact Hle.
Qed.

Lemma VGKC_Count_in_range_witness :
  exists n, VGKC_Count 1 [Ko; Kc; Ko; Kc] = Some n /\ (0 <= 1 -> 0 <= n).
Proof.
  apply (proj2 (VGKC_Count_in_range 1 [Ko; Kc; Ko; Kc])).
  unfold state_of, VGKC, KSU. simpl.
  repeat (apply Forall2_cons; [simpl; auto |]). apply Forall2_nil.
Defined.

(** X14.  For every state that gives the three m-subunits and the
    h-subunit of [VGNaC] one state each, both lookups of
    [Na_facs[state.Count(Na_ha)][state.Count(Na_mo)]] succeed, and the count
    injected is non-negative for a non-negative area. *)
Theorem VGNaC_Count_in_range :
  forall (surfarea : R) (state : ChannelState),
    state_of VGNaC state ->
    exists n, VGNaC_Count surfarea state = Some n
              /\ (0 <= surfarea -> 0 <= n).
Proof.
  intros surfarea state Hstate.
  unfold state_of, VGNaC in Hstate.
  inversion Hstate as [| x1 su1 s1 ch1 H1 Hs1]; subst.
  inversion Hs1 as [| x2 su2 s2 ch2 H2 Hs2]; subst.
  inversion Hs2 as [| x3 su3 s3 ch3 H3 Hs3]; subst.
  inversion Hs3 as [| x4 su4 s4 ch4 H4 Hs4]; subst.
  inversion Hs4; subst.
  unfold NamSU in H1, H2, H3. unfold NahSU in H4.
  simpl in H1, H2, H3, H4.
  destruct H1 as [<- | [<- | []]]; destruct H2 as [<- | [<- | []]];
    destruct H3 as [<- | [<- | []]]; destruct H4 as [<- | [<- | []]];
    unfold VGNaC_Count; simpl;
    (eexists; split; [reflexivity |]; intros Harea;
     apply Rmult_le_pos; [apply Rmult_le_pos |]; unfold Na_ro; lra).
Qed.

Lemma VGNaC_Count_in_range_witness :
  exists n, VGNaC_Count 1 [Na_mo; Na_mc; Na_mo; Na_ha] = Some n
            /\ (0 <= 1 -> 0 <= n).
Proof.
  apply (VGNaC_Count_in_range 1 [Na_mo; Na_mc; Na_mo; Na_ha]).
  unfold state_of, VGNaC, NamSU, NahSU.
  repeat (apply Forall2_cons; [simpl; auto |]). apply Forall2_nil.
Defined.

(** * The rate function on binary64 numbers: what a call returns or raises *)

Module Binary64Facts.

Import Binary64.
#[local] Set Warnings "-inexact-float".
Local Open Scope float_scope.
Local Open Scope b64_scope.

(** [math.isclose(a, 0, abs_tol=1e-13)] raises nothing. *)
Lemma isclose_zero_default (a : float) :
  isclose a 0 rel_tol_default abs_tol_default = Ok (within_tol a).
Proof.
  unfold isclose, within_tol.
  replace ((rel_tol_default <? 0) || (abs_tol_default <? 0)) with false
    by (vm_compute; reflexivity).
  destruct (a =? 0); [reflexivity |].
  destruct (is_infinity a || is_infinity 0); reflexivity.
Qed.

(** [math.pow(3.0, y)]: only a finite exponent reaches the C library. *)
Lemma pow_3 (m : libm) (y : float) :
  pow m 3.0 y =
  if negb (is_finite y) then
    if is_nan y then Ok y else if 0 <? y then Ok y else Ok 0
  else
    let r := c_pow m 3.0 y in
    if is_nan r then Raise ValueError
    else if is_infinity r then Raise OverflowError
    else Ok r.
Proof.
  unfold pow.
  change (negb (is_finite 3.0)) with false.
  change (is_nan 3.0) with false.
  change (is_infinity 3.0) with false.
  change (3.0 =? 1) with false.
  change (3.0 =? 0) with false.
  change (abs 3.0 =? 1) with false.
  change (1 <? abs 3.0) with true.
  change (abs 3.0 <? 1) with false.
  cbn [orb].
  destruct (negb (is_finite y)); [| reflexivity].
  destruct (is_nan y); [reflexivity |].
  destruct (0 <? y); cbn [andb]; [reflexivity |].
  destruct (y <? 0); reflexivity.
Qed.

Section Call.

Variable m : libm.
Variables T A B C D F H V : float.

(** The control flow of a call at the default tolerance. *)
Lemma HHRate_unfold :
  HHRate m T A B C D F H V =
  match pow m 3.0 ((T - 6.3) / 10.0) with
  | Raise ex => Raise ex
  | Ok p =>
      if F =? 0 then Raise ZeroDivisionError
      else
        match exp m ((V * 1e3 + D) / F) with
        | Raise ex => Raise ex
        | Ok e =>
            if within_tol (A + B * V * 1e3) && within_tol (C + H * e)
            then truediv (1e3 * p * F * B) (H * e)
            else truediv (1e3 * p * (A + B * V * 1e3)) (C + H * e)
        end
  end.
Proof.
  unfold HHRate, HHRateFunction.
  destruct (pow m 3.0 ((T - 6.3) / 10.0)) as [p | ex]; [| reflexivity].
  cbn [bind]. unfold truediv at 1.
  destruct (F =? 0) eqn:HF; [reflexivity |]. cbn [bind].
  destruct (exp m ((V * 1e3 + D) / F)) as [e | ex] eqn:He; [| reflexivity].
  cbn [bind]. rewrite isclose_zero_default. cbn [bind].
  destruct (within_tol (A + B * V * 1e3)); cbn [andb].
  - rewrite isclose_zero_default. cbn [bind].
    destruct (within_tol (C + H * e)); [| reflexivity].
    unfold truediv at 1. rewrite HF. cbn [bind]. rewrite He. reflexivity.
  - reflexivity.
Qed.

Lemma HHRate_branch_unfold :
  HHRate_branch m T A B C D F H V abs_tol_default =
  match pow m 3.0 ((T - 6.3) / 10.0) with
  | Raise ex => Raise ex
  | Ok p =>
      if F =? 0 then Raise ZeroDivisionError
      else
        match exp m ((V * 1e3 + D) / F) with
        | Raise ex => Raise ex
        | Ok e =>
            Ok (if within_tol (A + B * V * 1e3) && within_tol (C + H * e)
                then Fallback else Direct)
        end
  end.
Proof.
  unfold HHRate_branch.
  destruct (pow m 3.0 ((T - 6.3) / 10.0)) as [p | ex]; [| reflexivity].
  cbn [bind]. unfold truediv.
  destruct (F =? 0); [reflexivity |]. cbn [bind].
  destruct (exp m ((V * 1e3 + D) / F)) as [e | ex]; [| reflexivity].
  cbn [bind]. rewrite isclose_zero_default. cbn [bind].
  destruct (within_tol (A + B * V * 1e3)); cbn [andb].
  - rewrite isclose_zero_default. cbn [bind].
    destruct (within_tol (C + H * e)); reflexivity.
  - reflexivity.
Qed.

(** The three steps that come before the test of line 77, for any
    [abs_tol]. *)
Lemma HHRateFunction_pow_raises (abs_tol : float) (ex : exn) :
  pow m 3.0 ((T - 6.3) / 10.0) = Raise ex ->
  HHRateFunction m T A B C D F H V abs_tol = Raise ex
  /\ HHRate_branch m T A B C D F H V abs_tol = Raise ex.
Proof.
  intros Hp. unfold HHRateFunction, HHRate_branch. rewrite Hp.
  split; reflexivity.
Qed.

Lemma HHRateFunction_zero_divisor (abs_tol p : float) :
  pow m 3.0 ((T - 6.3) / 10.0) = Ok p ->
  (F =? 0) = true ->
  HHRateFunction m T A B C D F H V abs_tol = Raise ZeroDivisionError
  /\ HHRate_branch m T A B C D F H V abs_tol = Raise ZeroDivisionError.
Proof.
  intros Hp HF. unfold HHRateFunction, HHRate_branch, truediv.
  rewrite Hp, HF. split; reflexivity.
Qed.

End Call.

(** A call reads the C library at two points only: [pow] at base [3.0] and
    the exponent of line 73, [exp] at the quotient of line 76.  Two
    libraries that agree there give the same outcome. *)
Lemma HHRateFunction_reads_libm (m m' : libm)
      (T A B C D F H V abs_tol : float) :
  c_pow m 3.0 ((T - 6.3) / 10.0) = c_pow m' 3.0 ((T - 6.3) / 10.0) ->
  c_exp m ((V * 1e3 + D) / F) = c_exp m' ((V * 1e3 + D) / F) ->
  HHRateFunction m T A B C D F H V abs_tol =
  HHRateFunction m' T A B C D F H V abs_tol.
Proof.
  intros Hp He.
  assert (Hpow : pow m 3.0 ((T - 6.3) / 10.0) = pow m' 3.0 ((T - 6.3) / 10.0)).
  { rewrite !pow_3. cbv zeta. rewrite Hp. reflexivity. }
  assert (Hexp : exp m ((V * 1e3 + D) / F) = exp m' ((V * 1e3 + D) / F)).
  { unfold exp. cbv zeta. rewrite He. reflexivity. }
  unfold HHRateFunction. rewrite Hpow.
  destruct (pow m' 3.0 ((T - 6.3) / 10.0)) as [p | ex]; [| reflexivity].
  cbn [bind]. unfold truediv.
  destruct (F =? 0); [reflexivity |]. cbn [bind].
  rewrite Hexp.
  destruct (exp m' ((V * 1e3 + D) / F)) as [e | ex]; [| reflexivity].
  cbn [bind].
  destruct (isclose (A + B * V * 1e3) 0 rel_tol_default abs_tol)
    as [[|] | ex]; reflexivity.
Qed.

(** The numerator of the lambdas that pass [A = 1] and [B = 0]: [1] at a
    finite voltage, nan at an infinite or nan one. *)
Lemma unit_numerator (V : float) :
  (is_finite V = true -> 1 + 0 * V * 1e3 = 1)
  /\ (1 + 0 * V * 1e3 = 1 \/ 1 + 0 * V * 1e3 = nan).
Proof.
  assert (HV : SF2Prim (Prim2SF V) = V) by apply SF2Prim_Prim2SF.
  assert (Hfin : forall s, Prim2SF V = S754_zero s \/
                           (exists mt e, Prim2SF V = S754_finite s mt e) ->
                           1 + 0 * V * 1e3 = 1).
  { intros s Hs. apply Prim2SF_inj.
    rewrite add_spec, mul_spec, mul_spec.
    destruct Hs as [-> | (mt & e & ->)]; destruct s; vm_compute; reflexivity. }
  destruct (Prim2SF V) as [s | s | | s mt e] eqn:E.
  - split; [intros _ |left]; apply (Hfin s); left; reflexivity.
  - rewrite <- HV. destruct s; vm_compute; split;
      [discriminate | right; reflexivity | discriminate | right; reflexivity].
  - rewrite <- HV. vm_compute. split; [discriminate | right; reflexivity].
  - split; [intros _ | left]; apply (Hfin s); right; exists mt, e; reflexivity.
Qed.

Lemma unit_numerator_far (V : float) : within_tol (1 + 0 * V * 1e3) = false.
Proof.
  destruct (unit_numerator V) as [_ [-> | ->]]; vm_compute; reflexivity.
Qed.

Lemma rate_of_by_constants (m : libm) (l : RateLaw) (V : float) :
  rate_of m l V =
  let k := constants_of l in
  HHRate m celsius (cA k) (cB k) (cC k) (cD k) (cF k) (cH k) V.
Proof. destruct l; reflexivity. Qed.

(** ** What the specification states of the rate function *)

(** C9 (amended).  With [F = 0] the call raises [ZeroDivisionError] whenever
    line 73 returns, that is whenever [math.pow] does not raise at the
    temperature; where [math.pow] raises, the call raises that error
    instead.  Neither [return] is reached, for any tolerance. *)
Theorem HHRateFunction_zero_F :
  forall (m : libm) (T A B C D F H V abs_tol : float),
    (F =? 0) = true ->
    (forall p, pow m 3.0 ((T - 6.3) / 10.0) = Ok p ->
       HHRateFunction m T A B C D F H V abs_tol = Raise ZeroDivisionError
       /\ HHRate_branch m T A B C D F H V abs_tol = Raise ZeroDivisionError)
    /\ (forall ex, pow m 3.0 ((T - 6.3) / 10.0) = Raise ex ->
       HHRateFunction m T A B C D F H V abs_tol = Raise ex)
    /\ (forall r, HHRateFunction m T A B C D F H V abs_tol <> Ok r).
Proof.
  intros m T A B C D F H V abs_tol HF.
  split; [| split].
  - intros p Hp. now apply HHRateFunction_zero_divisor with (p := p).
  - intros ex Hp. now apply HHRateFunction_pow_raises.
  - intros r.
    destruct (pow m 3.0 ((T - 6.3) / 10.0)) as [p | ex] eqn:Hp.
    + destruct (HHRateFunction_zero_divisor m T A B C D F H V abs_tol p Hp HF)
        as [-> _]. discriminate.
    + destruct (HHRateFunction_pow_raises m T A B C D F H V abs_tol ex Hp)
        as [-> _]. discriminate.
Qed.

(** The beta-n constants with [F = 0], at 6.3 degrees, where line 73 is
    [pow(3.0, 0.0) = 1.0]. *)
Lemma HHRateFunction_zero_F_witness :
  HHRateFunction range_libm 6.3 1 0 0 65 0 8 (-0.065) abs_tol_default
  = Raise ZeroDivisionError
  /\ HHRate_branch range_libm 6.3 1 0 0 65 0 8 (-0.065) abs_tol_default
     = Raise ZeroDivisionError.
Proof.
  refine (proj1 (HHRateFunction_zero_F range_libm 6.3 1 0 0 65 0 8 (-0.065)
                   abs_tol_default _) 1 _); vm_compute; reflexivity.
Defined.

(** C9 as stated fails at a temperature where [3 ** ((celsius-6.3)/10)]
    leaves the binary64 range: at [celsius = 7006.3] the exponent is [700.0]
    and line 73 raises [OverflowError] before line 76 divides by [F]. *)
Lemma HHRateFunction_zero_F_overflow :
  (7006.3 - 6.3) / 10.0 = 700.0
  /\ HHRateFunction range_libm 7006.3 1 0 0 65 0 8 (-0.065) abs_tol_default
     = Raise OverflowError.
Proof.
  vm_compute. split; reflexivity.
Qed.

(** C1 (amended).  For every temperature, constants with [F] nonzero and
    voltage at which [math.pow] and [math.exp] return, and such that the
    computed numerator and denominator are not both within the tolerance of
    zero and the computed denominator is not zero, the call returns the
    binary64 value of [thi * (A + B*V') / (C + H*exp((V' + D)/F))], computed
    operation by operation as lines 73-80 write it. *)
Theorem HHRateFunction_direct_value :
  forall (m : libm) (T A B C D F H V p e : float),
    pow m 3.0 ((T - 6.3) / 10.0) = Ok p ->
    (F =? 0) = false ->
    exp m ((V * 1e3 + D) / F) = Ok e ->
    within_tol (A + B * V * 1e3) && within_tol (C + H * e) = false ->
    (C + H * e =? 0) = false ->
    HHRate m T A B C D F H V =
    Ok (1e3 * p * (A + B * V * 1e3) / (C + H * e)).
Proof.
  intros m T A B C D F H V p e Hp HF He Hfar Hd.
  rewrite HHRate_unfold, Hp, HF, He, Hfar. unfold truediv.
  rewrite Hd. reflexivity.
Qed.

(** Numerator [1], denominator [8 * exp(0)], at 6.3 degrees: the rate is
    [1000 / 8]. *)
Lemma HHRateFunction_direct_value_witness :
  HHRate range_libm 6.3 1 0 0 0 80 8 0 =
  Ok (1e3 * 1 * (1 + 0 * 0 * 1e3) / (0 + 8 * 1))
  /\ 1e3 * 1 * (1 + 0 * 0 * 1e3) / (0 + 8 * 1) = 125.
Proof.
  split.
  - apply (HHRateFunction_direct_value range_libm 6.3 1 0 0 0 80 8 0 1 1);
      vm_compute; reflexivity.
  - vm_compute. reflexivity.
Defined.

(** C1 as stated fails in two ways.  With [A = 1], [B = C = D = H = 0] and
    [F = 1] at [V = 0] the numerator is [1], the denominator [0], and line 80
    raises [ZeroDivisionError].  With [H = 1] instead, at [V = 1.0], the
    argument of [math.exp] is [1000.0] and line 76 raises
    [OverflowError]. *)
Lemma HHRateFunction_direct_raises :
  ((1 =? 0) = false
   /\ within_tol (1 + 0 * 0 * 1e3) = false
   /\ HHRate range_libm 6.3 1 0 0 0 1 0 0 = Raise ZeroDivisionError)
  /\ ((1.0 * 1e3 + 0) / 1 = 1000
      /\ within_tol (1 + 0 * 1.0 * 1e3) = false
      /\ HHRate range_libm 6.3 1 0 0 0 1 1 1.0 = Raise OverflowError).
Proof.
  vm_compute. repeat split.
Qed.

(** C2 (amended).  For every input with [F] nonzero at which [math.pow] and
    [math.exp] return, whose computed numerator and denominator are both
    within the tolerance of zero and whose divisor [H * exp((V' + D)/F)] is
    not zero, the call returns the binary64 value of
    [thi * F * B / (H * exp((V' + D)/F))]. *)
Theorem HHRateFunction_limit_value :
  forall (m : libm) (T A B C D F H V p e : float),
    pow m 3.0 ((T - 6.3) / 10.0) = Ok p ->
    (F =? 0) = false ->
    exp m ((V * 1e3 + D) / F) = Ok e ->
    within_tol (A + B * V * 1e3) = true ->
    within_tol (C + H * e) = true ->
    (H * e =? 0) = false ->
    HHRate m T A B C D F H V = Ok (1e3 * p * F * B / (H * e)).
Proof.
  intros m T A B C D F H V p e Hp HF He Hn Hd HH.
  rewrite HHRate_unfold, Hp, HF, He, Hn, Hd. cbn [andb]. unfold truediv.
  rewrite HH. reflexivity.
Qed.

(** The shape of alpha-n at its singular voltage, moved to [V = 0]:
    numerator [0], denominator [-1 + exp(0)]. *)
Lemma HHRateFunction_limit_value_witness :
  HHRate range_libm 6.3 0 (-0.01) (-1) 0 (-10) 1 0 =
  Ok (1e3 * 1 * (-10) * (-0.01) / (1 * 1))
  /\ 1e3 * 1 * (-10) * (-0.01) / (1 * 1) = 100.
Proof.
  split.
  - apply (HHRateFunction_limit_value range_libm 6.3 0 (-0.01) (-1) 0 (-10) 1 0
             1 1); vm_compute; reflexivity.
  - vm_compute. reflexivity.
Defined.

(** C2 as stated fails in three ways, each with numerator and denominator
    within the tolerance.  With [H = 0] line 78 divides by zero.  With
    [H = 1] at [V = -0.8] the exponential underflows to zero and line 78
    divides by zero again.  With [B = 1] and [H = 1e-320] the quotient
    [1000 / 1e-320] exceeds the binary64 range and the call returns
    infinity. *)
Lemma HHRateFunction_limit_raises_or_infinite :
  (within_tol (0 + 0 * 0 * 1e3) && within_tol (0 + 0 * 1) = true
   /\ HHRate range_libm 6.3 0 0 0 0 1 0 0 = Raise ZeroDivisionError)
  /\ ((-0.8 * 1e3 + 0) / 1 = -800
      /\ within_tol (0 + 0 * (-0.8) * 1e3) && within_tol (0 + 1 * 0) = true
      /\ HHRate range_libm 6.3 0 0 0 0 1 1 (-0.8) = Raise ZeroDivisionError)
  /\ (within_tol (0 + 1 * 0 * 1e3) && within_tol (0 + 1e-320 * 1) = true
      /\ (1e-320 =? 0) = false
      /\ HHRate range_libm 6.3 0 1 0 0 1 1e-320 0 = Ok infinity).
Proof.
  vm_compute. repeat split.
Qed.

(** C4 (amended).  For every input with [F] nonzero at which [math.pow] and
    [math.exp] return: when the computed numerator and denominator are not
    both within the tolerance of zero the call takes the direct branch and,
    the denominator being nonzero, returns the direct quotient; when both
    are within the tolerance, nonzero ones included, it takes the fallback
    branch and, the divisor being nonzero, returns the limit quotient. *)
Theorem HHRateFunction_tolerance_branches :
  forall (m : libm) (T A B C D F H V p e : float),
    pow m 3.0 ((T - 6.3) / 10.0) = Ok p ->
    (F =? 0) = false ->
    exp m ((V * 1e3 + D) / F) = Ok e ->
    (within_tol (A + B * V * 1e3) && within_tol (C + H * e) = false ->
       HHRate_branch m T A B C D F H V abs_tol_default = Ok Direct
       /\ ((C + H * e =? 0) = false ->
           HHRate m T A B C D F H V =
           Ok (1e3 * p * (A + B * V * 1e3) / (C + H * e))))
    /\ (within_tol (A + B * V * 1e3) && within_tol (C + H * e) = true ->
       HHRate_branch m T A B C D F H V abs_tol_default = Ok Fallback
       /\ ((H * e =? 0) = false ->
           HHRate m T A B C D F H V = Ok (1e3 * p * F * B / (H * e)))).
Proof.
  intros m T A B C D F H V p e Hp HF He.
  rewrite HHRate_unfold, HHRate_branch_unfold, Hp, HF, He. unfold truediv.
  split; intros ->; (split; [reflexivity | intros ->; reflexivity]).
Qed.

(** Numerator and denominator [1e-14]: the fallback branch, with limit
    value [1000 * 1 * 0 / 1e-14 = 0]. *)
Lemma HHRateFunction_tolerance_branches_witness :
  HHRate_branch range_libm 6.3 1e-14 0 0 0 1 1e-14 0 abs_tol_default
  = Ok Fallback
  /\ HHRate range_libm 6.3 1e-14 0 0 0 1 1e-14 0
     = Ok (1e3 * 1 * 1 * 0 / (1e-14 * 1)).
Proof.
  destruct (HHRateFunction_tolerance_branches
              range_libm 6.3 1e-14 0 0 0 1 1e-14 0 1 1) as [_ Hfb];
    try (vm_compute; reflexivity).
  destruct Hfb as [Hb Hv]; [vm_compute; reflexivity |].
  split; [exact Hb | apply Hv; vm_compute; reflexivity].
Defined.

(** C4 as stated fails on its own example: with numerator and denominator
    [1e-14], nonzero and below the tolerance, the call returns [0] where the
    direct quotient is [999.9999999999999]. *)
Lemma HHRateFunction_small_nonzero_limit :
  (1e-14 + 0 * 0 * 1e3 =? 0) = false
  /\ (0 + 1e-14 * 1 =? 0) = false
  /\ HHRate range_libm 6.3 1e-14 0 0 0 1 1e-14 0 = Ok 0
  /\ 1e3 * 1 * (1e-14 + 0 * 0 * 1e3) / (0 + 1e-14 * 1) = 999.9999999999999.
Proof.
  vm_compute. repeat split.
Qed.

(** C10 (amended).  For the beta-n, beta-m and alpha-h laws the numerator is
    [1] at every finite voltage (nan at an infinite or nan one) and never
    within the tolerance of zero, so no call reaches the fallback branch;
    a call that returns has passed lines 73 and 76 and returns the direct
    quotient [thi * 1 / (C + H*exp((V' + D)/F))] of line 80. *)
Theorem unit_numerator_laws_branch :
  forall (m : libm) (l : RateLaw) (V : float),
    In l unit_numerator_laws ->
    let k := constants_of l in
    cA k = 1 /\ cB k = 0
    /\ (is_finite V = true -> cA k + cB k * V * 1e3 = 1)
    /\ within_tol (cA k + cB k * V * 1e3) = false
    /\ branch_of m l V <> Ok Fallback
    /\ (forall r, rate_of m l V = Ok r ->
        branch_of m l V = Ok Direct
        /\ exists p e,
             pow m 3.0 ((celsius - 6.3) / 10.0) = Ok p
             /\ exp m ((V * 1e3 + cD k) / cF k) = Ok e
             /\ r = 1e3 * p * (cA k + cB k * V * 1e3) / (cC k + cH k * e)).
Proof.
  intros m l V Hin k.
  assert (HA : cA k = 1 /\ cB k = 0).
  { subst k. unfold unit_numerator_laws in Hin. simpl in Hin.
    destruct Hin as [<- | [<- | [<- | []]]]; split; reflexivity. }
  destruct HA as [HA HB].
  assert (Hfar : within_tol (cA k + cB k * V * 1e3) = false).
  { rewrite HA, HB. apply unit_numerator_far. }
  split; [exact HA |]. split; [exact HB |].
  split; [rewrite HA, HB; apply unit_numerator |].
  split; [exact Hfar |].
  unfold branch_of. fold k. rewrite rate_of_by_constants. fold k.
  rewrite HHRate_unfold, HHRate_branch_unfold.
  destruct (pow m 3.0 ((celsius - 6.3) / 10.0)) as [p | ex].
  2: { split; [discriminate | intros r; discriminate]. }
  destruct (cF k =? 0).
  { split; [discriminate | intros r; discriminate]. }
  destruct (exp m ((V * 1e3 + cD k) / cF k)) as [e | ex].
  2: { split; [discriminate | intros r; discriminate]. }
  rewrite Hfar. cbn [andb].
  split; [discriminate |].
  intros r Hr. split; [reflexivity |].
  exists p, e. split; [reflexivity |]. split; [reflexivity |].
  unfold truediv in Hr.
  destruct (cC k + cH k * e =? 0); [discriminate |].
  now inversion Hr.
Qed.

(** beta-n at the resting potential, with the C library's value of
    [3 ** 1.37]. *)
Lemma unit_numerator_laws_branch_witness :
  1 + 0 * (-0.065) * 1e3 = 1
  /\ branch_of range_libm b_n (-0.065) = Ok Direct
  /\ rate_of range_libm b_n (-0.065) = Ok 563.0748528066789.
Proof.
  destruct (unit_numerator_laws_branch range_libm b_n (-0.065))
    as (_ & _ & Hn & _ & _ & Hr).
  { unfold unit_numerator_laws. simpl. left. reflexivity. }
  split; [apply Hn; vm_compute; reflexivity |].
  split; [apply (Hr 563.0748528066789) |]; vm_compute; reflexivity.
Defined.

(** C10 as stated fails where the exponential leaves the binary64 range: at
    [V = 60.0] the argument of [math.exp] in beta-n is [750.8125] and line 76
    raises [OverflowError], so the call returns nothing. *)
Lemma unit_numerator_law_overflow :
  (60.0 * 1e3 + 65) / 80 = 750.8125
  /\ rate_of range_libm b_n 60.0 = Raise OverflowError.
Proof.
  vm_compute. split; reflexivity.
Qed.

(** ** More on the call *)

(** X1.  When lines 73 and 76 pass ([math.pow] returns, [F] is nonzero,
    [math.exp] returns), a negative [abs_tol] makes the call raise the
    [ValueError] of [math.isclose], whatever the other arguments. *)
Theorem HHRateFunction_negative_tolerance :
  forall (m : libm) (T A B C D F H V abs_tol p e : float),
    pow m 3.0 ((T - 6.3) / 10.0) = Ok p ->
    (F =? 0) = false ->
    exp m ((V * 1e3 + D) / F) = Ok e ->
    (abs_tol <? 0) = true ->
    HHRateFunction m T A B C D F H V abs_tol = Raise ValueError.
Proof.
  intros m T A B C D F H V abs_tol p e Hp HF He Htol.
  unfold HHRateFunction. rewrite Hp. cbn [bind]. unfold truediv at 1.
  rewrite HF. cbn [bind]. rewrite He. cbn [bind].
  unfold isclose at 1. rewrite Htol, Bool.orb_true_r. reflexivity.
Qed.

Lemma HHRateFunction_negative_tolerance_witness :
  HHRateFunction range_libm 6.3 1 0 0 0 80 8 0 (-1e-13) = Raise ValueError.
Proof.
  apply (HHRateFunction_negative_tolerance range_libm 6.3 1 0 0 0 80 8 0
           (-1e-13) 1 1); vm_compute; reflexivity.
Defined.

(** X3.  A call at the default tolerance returns a value exactly when
    [math.pow] returns at line 73, [F] is nonzero, [math.exp] returns at
    line 76 and the divisor of the branch taken is nonzero: [H * exp(...)]
    when numerator and denominator are both within the tolerance, the
    denominator otherwise.  An exception it raises is the one [math.pow] or
    [math.exp] raises, or [ZeroDivisionError]. *)
Theorem HHRate_outcome :
  forall (m : libm) (T A B C D F H V : float),
    (forall r,
       HHRate m T A B C D F H V = Ok r <->
       exists p e,
         pow m 3.0 ((T - 6.3) / 10.0) = Ok p
         /\ (F =? 0) = false
         /\ exp m ((V * 1e3 + D) / F) = Ok e
         /\ if within_tol (A + B * V * 1e3) && within_tol (C + H * e)
            then (H * e =? 0) = false /\ r = 1e3 * p * F * B / (H * e)
            else (C + H * e =? 0) = false
                 /\ r = 1e3 * p * (A + B * V * 1e3) / (C + H * e))
    /\ (forall ex,
          HHRate m T A B C D F H V = Raise ex ->
          pow m 3.0 ((T - 6.3) / 10.0) = Raise ex
          \/ ex = ZeroDivisionError
          \/ exp m ((V * 1e3 + D) / F) = Raise ex).
Proof.
  intros m T A B C D F H V. rewrite HHRate_unfold. split.
  - intros r. split.
    + destruct (pow m 3.0 ((T - 6.3) / 10.0)) as [p | ex]; [| discriminate].
      destruct (F =? 0); [discriminate |].
      destruct (exp m ((V * 1e3 + D) / F)) as [e | ex]; [| discriminate].
      intros Hr. exists p, e. repeat (split; [reflexivity |]).
      unfold truediv in Hr.
      destruct (within_tol (A + B * V * 1e3) && within_tol (C + H * e)).
      * destruct (H * e =? 0); [discriminate |].
        split; [reflexivity | now inversion Hr].
      * destruct (C + H * e =? 0); [discriminate |].
        split; [reflexivity | now inversion Hr].
    + intros (p & e & -> & -> & -> & Hr). unfold truediv.
      destruct (within_tol (A + B * V * 1e3) && within_tol (C + H * e));
        destruct Hr as [-> ->]; reflexivity.
  - intros ex.
    destruct (pow m 3.0 ((T - 6.3) / 10.0)) as [p | ex0].
    2: { intros Hr. left. exact Hr. }
    destruct (F =? 0).
    { intros Hr. right. left. now inversion Hr. }
    destruct (exp m ((V * 1e3 + D) / F)) as [e | ex1].
    2: { intros Hr. right. right. exact Hr. }
    unfold truediv.
    destruct (within_tol (A + B * V * 1e3) && within_tol (C + H * e)).
    + destruct (H * e =? 0); [| discriminate].
      intros Hr. right. left. now inversion Hr.
    + destruct (C + H * e =? 0); [| discriminate].
      intros Hr. right. left. now inversion Hr.
Qed.

End Binary64Facts.
